(** * deps-go: response unpacking and client construction

    A shallow embedding of [client.go] (package [depsclient]): the generic
    [unpackResponse], the constructor [NewClient] with its functional
    options, the authenticating request interceptor and the thirteen
    service facade methods.

    Go values are modelled as follows.
    - A pointer [*T] that is only compared with [nil] and dereferenced is an
      [option T]; dereferencing [None] panics.
    - [int], [time.Duration] are [Z]; the code does no arithmetic on them
      beyond the constant [30 * time.Second].
    - An [error] is a reference to an error object; [==] on errors compares
      the dynamic type and the address, so error objects carry their address.
    - Functions that allocate or may panic run in the monad [M]. *)

From Stdlib Require Import ZArith String Ascii List Bool Lia.
From stdpp Require Import base strings gmap.

#[local] Set Warnings "-register-all".

Local Open Scope string_scope.
Local Open Scope Z_scope.

(** ** Go runtime: addresses, panics, allocation *)

(** Where an object lives.  A package-level variable is initialised once,
    before [main]; everything a running function allocates is fresh. *)
Inductive addr : Type :=
| Static (name : string)
| Dyn (n : nat).

Definition addr_eqb (a b : addr) : bool :=
  match a, b with
  | Static x, Static y => String.eqb x y
  | Dyn n, Dyn m => Nat.eqb n m
  | _, _ => false
  end.

(** The run-time heap, as far as this code observes it: the number of error
    values the running program has created so far, which is the address of
    the next one. *)
Definition heap : Type := nat.

Inductive outcome (A : Type) : Type :=
| Ret (a : A) (h : heap)
| Panic.

Arguments Ret {A} a h.
Arguments Panic {A}.

Definition M (A : Type) : Type := heap -> outcome A.

Definition ret {A} (a : A) : M A := fun h => Ret a h.

Definition bind {A B} (m : M A) (k : A -> M B) : M B :=
  fun h => match m h with
           | Ret a h' => k a h'
           | Panic => Panic
           end.

Definition panic {A} : M A := fun _ => Panic.

Declare Scope go_scope.
Delimit Scope go_scope with go.
Notation "x <- m ;; k" := (bind m (fun x => k))
  (at level 100, m at next level, right associativity) : go_scope.
Local Open Scope go_scope.

(** The address of a fresh error value, as [errors.New] and [fmt.Errorf]
    take one. *)
Definition alloc : M addr := fun h => Ret (Dyn h) (S h).

(** [*p] for a pointer [p]. *)
Definition deref {A} (p : option A) : M A :=
  match p with
  | Some a => ret a
  | None => panic
  end.

(** ** Package [errors] and [fmt.Errorf] *)

Inductive error : Type :=
| errorString (p : addr) (s : string)               (* *errors.errorString *)
| wrapError (p : addr) (msg : string) (err : error) (* *fmt.wrapError *)
| foreignError (ty : string) (p : addr) (msg : string) (cause : option error).
                                    (* any other implementation of error *)

(** The [Error()] method. *)
Definition Error (e : error) : string :=
  match e with
  | errorString _ s => s
  | wrapError _ msg _ => msg
  | foreignError _ _ msg _ => msg
  end.

(** The [Unwrap()] method, where the dynamic type has one. *)
Definition Unwrap (e : error) : option error :=
  match e with
  | errorString _ _ => None
  | wrapError _ _ err => Some err
  | foreignError _ _ _ cause => cause
  end.

(** [errors.Unwrap]. *)
Definition errors_Unwrap (err : option error) : option error :=
  match err with
  | Some e => Unwrap e
  | None => None
  end.

(** [a == b] on two non-nil error values: same dynamic type, same address. *)
Definition error_same (a b : error) : bool :=
  match a, b with
  | errorString p _, errorString q _ => addr_eqb p q
  | wrapError p _ _, wrapError q _ _ => addr_eqb p q
  | foreignError t p _ _, foreignError u q _ _ => String.eqb t u && addr_eqb p q
  | _, _ => false
  end.

(** The loop of [errors.Is] on a non-nil error and a non-nil target. *)
Fixpoint is_ (err target : error) : bool :=
  error_same err target ||
  match err with
  | errorString _ _ => false
  | wrapError _ _ inner => is_ inner target
  | foreignError _ _ _ (Some inner) => is_ inner target
  | foreignError _ _ _ None => false
  end.

(** [errors.Is]. *)
Definition errors_Is (err target : option error) : bool :=
  match err, target with
  | Some e, Some t => is_ e t
  | None, None => true
  | _, _ => false
  end.

Inductive arg : Type :=
| aString (s : string)
| aError (e : error).

Definition arg_text (a : arg) : string :=
  match a with
  | aString s => s
  | aError e => Error e
  end.

(** The verb of a format string that has exactly one. *)
Fixpoint verb (format : string) : option ascii :=
  match format with
  | EmptyString => None
  | String "%"%char (String v _) => Some v
  | String _ rest => verb rest
  end.

(** The text of a format string with one verb, given the operand's text. *)
Fixpoint sprintf1 (format text : string) : string :=
  match format with
  | EmptyString => EmptyString
  | String "%"%char (String _ rest) => text +:+ rest
  | String c rest => String c (sprintf1 rest text)
  end.

(** [fmt.Errorf(format, a)] for a format with one verb, [%s], [%v] or [%w]:
    a fresh [*fmt.wrapError] when the verb is [%w] and the operand an error,
    a fresh [*errors.errorString] otherwise. *)
Definition fmt_Errorf (format : string) (a : arg) : M error :=
  p <- alloc ;;
  match verb format, a with
  | Some "w"%char, aError e => ret (wrapError p (sprintf1 format (Error e)) e)
  | _, _ => ret (errorString p (sprintf1 format (arg_text a)))
  end.

(** [strings.Contains(s, substr)]. *)
Fixpoint strings_Contains (s substr : string) : bool :=
  String.prefix substr s ||
  match s with
  | EmptyString => false
  | String _ rest => strings_Contains rest substr
  end.

(** ** Package [net/textproto] and [net/http], as far as the client uses them *)

Definition is_lower (c : ascii) : bool :=
  (97 <=? N_of_ascii c)%N && (N_of_ascii c <=? 122)%N.

Definition is_upper (c : ascii) : bool :=
  (65 <=? N_of_ascii c)%N && (N_of_ascii c <=? 90)%N.

Definition is_digit (c : ascii) : bool :=
  (48 <=? N_of_ascii c)%N && (N_of_ascii c <=? 57)%N.

Definition toLower : N := 32.

(** [validHeaderFieldByte]: the token characters of RFC 7230. *)
Definition validHeaderFieldByte (c : ascii) : bool :=
  is_lower c || is_upper c || is_digit c ||
  existsb (Ascii.eqb c)
    ["!"; "#"; "$"; "%"; "&"; "'"; "*"; "+"; "-"; "."; "^"; "_"; "`"; "|"; "~"]%char.

Fixpoint all_bytes (f : ascii -> bool) (s : string) : bool :=
  match s with
  | EmptyString => true
  | String c rest => f c && all_bytes f rest
  end.

(** The rewriting loop of [canonicalMIMEHeaderKey]: upper case at the start
    and after each dash, lower case elsewhere. *)
Fixpoint canonical_loop (upper : bool) (a : string) : string :=
  match a with
  | EmptyString => EmptyString
  | String c rest =>
      let c' :=
        if upper && is_lower c then ascii_of_N (N_of_ascii c - toLower)
        else if negb upper && is_upper c then ascii_of_N (N_of_ascii c + toLower)
        else c in
      String c' (canonical_loop (Ascii.eqb c' "-") rest)
  end.

(** [textproto.CanonicalMIMEHeaderKey]: a key with a byte that is not a
    token character is returned unchanged. *)
Definition CanonicalMIMEHeaderKey (s : string) : string :=
  if all_bytes validHeaderFieldByte s then canonical_loop true s else s.

(** [http.Header], a [map[string][]string].  A header field of a request is
    such a map or nil: a nil map reads as an empty one, and writing to it
    panics. *)
Abbreviation http_Header := (gmap string (list string)).

(** [h.Set(key, value)]: the map after the assignment
    [h[CanonicalMIMEHeaderKey(key)] = []string{value}]. *)
Definition Header_Set (h : option http_Header) (key value : string)
  : M (option http_Header) :=
  match h with
  | Some m => ret (Some (<[CanonicalMIMEHeaderKey key := [value]]> m))
  | None => panic
  end.

(** [h.Get(key)] *)
Definition Header_Get (h : option http_Header) (key : string) : string :=
  match h with
  | Some m =>
      match m !! CanonicalMIMEHeaderKey key with
      | Some (v :: _) => v
      | _ => EmptyString
      end
  | None => EmptyString
  end.

(** [http.Request]: [http.NewRequest] always makes the header map; a request
    put together by hand may have a nil one. *)
Record http_Request : Type := {
  Method : string;
  URL : string;
  Header : option http_Header
}.

(** [http.Response]: the two fields the code reads. *)
Record http_Response : Type := {
  Status : string;
  StatusCode : Z
}.

Definition http_StatusNotFound : Z := 404.

(** An interface or function value held in a field the code never looks into. *)
Definition handle : Type := nat.

(** [http.Client] *)
Record http_Client : Type := {
  Transport : option handle;
  CheckRedirect : option handle;
  Jar : option handle;
  Timeout : Z
}.

(** [time.Second], in nanoseconds. *)
Definition time_Second : Z := 1000000000.

Section Depsclient.

(** [context.Context]: passed through, never inspected. *)
Context {context : Type}.

(** ** Package [internal/client], the generated endpoint client *)

Definition RequestEditorFn : Type :=
  context -> http_Request -> M (http_Request * option error).

(** Modelled from the spec: the generated endpoint client, whose package
    [internal/client] is not among the sources.  The spec treats it as a
    black box that is configured with a base URL, an HTTP client and request
    decorators, and that offers one operation per endpoint; the model keeps
    the configuration it is given. *)
Record ClientWithResponses : Type := {
  Server : string;
  Client_ : http_Client;
  RequestEditors : list RequestEditorFn
}.

Inductive ClientOption : Type :=
| apiclient_WithHTTPClient (doer : http_Client)
| apiclient_WithRequestEditorFn (fn : RequestEditorFn).

Definition apply_ClientOption (c : ClientWithResponses) (o : ClientOption)
  : ClientWithResponses :=
  match o with
  | apiclient_WithHTTPClient doer =>
      {| Server := Server c; Client_ := doer; RequestEditors := RequestEditors c |}
  | apiclient_WithRequestEditorFn fn =>
      {| Server := Server c; Client_ := Client_ c;
         RequestEditors := RequestEditors c ++ [fn] |}
  end.

(** Modelled from the spec: the generated constructor
    [apiclient.NewClientWithResponses(server, opts...)]. *)
Definition apiclient_NewClientWithResponses (server : string) (opts : list ClientOption)
  : M (option ClientWithResponses * option error) :=
  ret (Some (fold_left apply_ClientOption opts
               {| Server := server;
                  Client_ := {| Transport := None; CheckRedirect := None;
                                Jar := None; Timeout := 0 |};
                  RequestEditors := [] |}),
       None).

(** Modelled from the spec: the generated client decorates every request it
    is about to send with its request editors, in order, and gives up at the
    first one that fails. *)
Fixpoint applyEditors (editors : list RequestEditorFn) (ctx : context)
    (req : http_Request) : M (http_Request * option error) :=
  match editors with
  | [] => ret (req, None)
  | fn :: rest =>
      r <- fn ctx req ;;
      match r with
      | (req', Some e) => ret (req', Some e)
      | (req', None) => applyEditors rest ctx req'
      end
  end.

(** The response envelope of a generated operation: the fields the facade
    reads. *)
Record envelope (T : Type) : Type := {
  HTTPResponse : option http_Response;
  JSON200 : option T
}.

Arguments HTTPResponse {T} _.
Arguments JSON200 {T} _.

Inductive GetServerAdminsV2AdminsGetParams : Type :=
  mkGetServerAdminsV2AdminsGetParams (ServerId : Z).
Inductive GetFamiliesV2FamiliesGetParams : Type :=
  mkGetFamiliesV2FamiliesGetParams (ServerId : Z).
Inductive GetFamilyV2FamilyGetParams : Type :=
  mkGetFamilyV2FamilyGetParams (ServerId FamId : Z).
Inductive GetFractionsListV2FractionsGetParams : Type :=
  mkGetFractionsListV2FractionsGetParams (ServerId : Z).
Inductive GetFractionMembersV2FractionGetParams : Type :=
  mkGetFractionMembersV2FractionGetParams (ServerId : Z) (FractionId : string).
Inductive GetGhettoListV2GhettoGetParams : Type :=
  mkGetGhettoListV2GhettoGetParams (ServerId : Z).
Inductive GetLeadersListV2LeadersGetParams : Type :=
  mkGetLeadersListV2LeadersGetParams (ServerId : Z).
Inductive GetSubleadersListV2SubleadersGetParams : Type :=
  mkGetSubleadersListV2SubleadersGetParams (ServerId : Z).
Inductive GetPropertyMapWithPoiV2MapGetParams : Type :=
  mkGetPropertyMapWithPoiV2MapGetParams (ServerId : Z).
Inductive GetOnlineListV2OnlineGetParams : Type :=
  mkGetOnlineListV2OnlineGetParams (ServerId : Z).
Inductive FindPlayerV2PlayerFindGetParams : Type :=
  mkFindPlayerV2PlayerFindGetParams (ServerId : Z) (Nickname : string).
Inductive GetSobesListV2SobesGetParams : Type :=
  mkGetSobesListV2SobesGetParams (ServerId : Z).

(** What a generated operation returns: a pointer to the response envelope
    and an error. *)
Definition called (T : Type) : Type := M (option (envelope T) * option error).

(** The operations of the generated client and their payload types.  Their
    code is not among the sources, so the facade is verified for every
    implementation of them. *)
Class ClientWithResponsesInterface : Type := {
  AdminsResponse : Type;
  FamilyListResponse : Type;
  FamilyResponse : Type;
  FractionsListResponse : Type;
  FractionResponse : Type;
  GhettoResponse : Type;
  LeadersResponse : Type;
  SubleadersResponse : Type;
  MapResponse : Type;
  OnlinePlayersResponse : Type;
  PlayerResponse : Type;
  SobesResponse : Type;
  StatusResponse : Type;
  GetServerAdminsV2AdminsGetWithResponse :
    option ClientWithResponses -> context -> GetServerAdminsV2AdminsGetParams ->
    called AdminsResponse;
  GetFamiliesV2FamiliesGetWithResponse :
    option ClientWithResponses -> context -> GetFamiliesV2FamiliesGetParams ->
    called FamilyListResponse;
  GetFamilyV2FamilyGetWithResponse :
    option ClientWithResponses -> context -> GetFamilyV2FamilyGetParams ->
    called FamilyResponse;
  GetFractionsListV2FractionsGetWithResponse :
    option ClientWithResponses -> context -> GetFractionsListV2FractionsGetParams ->
    called FractionsListResponse;
  GetFractionMembersV2FractionGetWithResponse :
    option ClientWithResponses -> context -> GetFractionMembersV2FractionGetParams ->
    called FractionResponse;
  GetGhettoListV2GhettoGetWithResponse :
    option ClientWithResponses -> context -> GetGhettoListV2GhettoGetParams ->
    called GhettoResponse;
  GetLeadersListV2LeadersGetWithResponse :
    option ClientWithResponses -> context -> GetLeadersListV2LeadersGetParams ->
    called LeadersResponse;
  GetSubleadersListV2SubleadersGetWithResponse :
    option ClientWithResponses -> context -> GetSubleadersListV2SubleadersGetParams ->
    called SubleadersResponse;
  GetPropertyMapWithPoiV2MapGetWithResponse :
    option ClientWithResponses -> context -> GetPropertyMapWithPoiV2MapGetParams ->
    called MapResponse;
  GetOnlineListV2OnlineGetWithResponse :
    option ClientWithResponses -> context -> GetOnlineListV2OnlineGetParams ->
    called OnlinePlayersResponse;
  FindPlayerV2PlayerFindGetWithResponse :
    option ClientWithResponses -> context -> FindPlayerV2PlayerFindGetParams ->
    called PlayerResponse;
  GetSobesListV2SobesGetWithResponse :
    option ClientWithResponses -> context -> GetSobesListV2SobesGetParams ->
    called SobesResponse;
  GetStatusV2StatusGetWithResponse :
    option ClientWithResponses -> context -> called StatusResponse
}.

Context {api : ClientWithResponsesInterface}.

(** ** [client.go] *)

(** [var ErrNotFound = errors.New("not found")] *)
Definition ErrNotFound : error := errorString (Static "ErrNotFound") "not found".

Definition defaultBaseURL : string := "https://api.depscian.tech/v2".
Definition apiKeyHeader : string := "X-API-Key".

Definition unpackResponse {T : Type}
    (responseBody : option T)
    (httpResponse : option http_Response)
    (err : option error) : M (option T * option error) :=
  match err with
  | Some e =>
      w <- fmt_Errorf "client execution error: %w" (aError e) ;;
      ret (None, Some w)
  | None =>
      r <- deref httpResponse ;;
      if StatusCode r =? http_StatusNotFound then
        ret (None, Some ErrNotFound)
      else if (StatusCode r <? 200) || (StatusCode r >=? 300) then
        w <- fmt_Errorf "api error: status %s" (aString (Status r)) ;;
        ret (None, Some w)
      else
        match responseBody with
        | None => ret (None, Some ErrNotFound)
        | Some _ => ret (responseBody, None)
        end
  end.

(** [type Client struct]: the generated client it owns.  The fields [common]
    and [Admins] ... [Status] are all the one pointer [&c.common], whose
    [client] field points back at [c]; they are the functions [common] and
    [Admins] ... [Status_] of the client below. *)
Record Client : Type := {
  internalClient : option ClientWithResponses
}.

(** [type service struct { client *Client }] *)
Record service : Type := {
  client : option Client
}.

(** [type Option]: a function of a pointer to the HTTP client and a pointer
    to the base URL that returns an error; it reads and writes what the two
    point at. *)
Definition Option : Type :=
  http_Client -> string -> M (http_Client * string * option error).

(** The request interceptor that [NewClient] builds around [apiKey]. *)
Definition authInterceptor (apiKey : string) : RequestEditorFn :=
  fun ctx req =>
    hd <- Header_Set (Header req) apiKeyHeader apiKey ;;
    ret ({| Method := Method req; URL := URL req; Header := hd |}, None).

(** The [for _, opt := range opts] loop of [NewClient]: [inl] is the early
    return, [inr] the HTTP client and base URL after all options. *)
Fixpoint apply_opts (opts : list Option) (httpClient : http_Client) (baseURL : string)
  : M ((option Client * option error) + (http_Client * string)) :=
  match opts with
  | [] => ret (inr (httpClient, baseURL))
  | opt :: rest =>
      r <- opt httpClient baseURL ;;
      match r with
      | (_, _, Some err) =>
          w <- fmt_Errorf "failed to apply option: %w" (aError err) ;;
          ret (inl (None, Some w))
      | (httpClient', baseURL', None) => apply_opts rest httpClient' baseURL'
      end
  end.

Definition NewClient (apiKey : string) (opts : list Option)
  : M (option Client * option error) :=
  let httpClient := {| Transport := None; CheckRedirect := None; Jar := None;
                       Timeout := 30 * time_Second |} in
  let baseURL := defaultBaseURL in
  st <- apply_opts opts httpClient baseURL ;;
  match st with
  | inl early => ret early
  | inr (httpClient, baseURL) =>
      g <- apiclient_NewClientWithResponses baseURL
             [apiclient_WithHTTPClient httpClient;
              apiclient_WithRequestEditorFn (authInterceptor apiKey)] ;;
      match g with
      | (_, Some err) =>
          w <- fmt_Errorf "failed to create API client: %w" (aError err) ;;
          ret (None, Some w)
      | (generatedClient, None) =>
          ret (Some {| internalClient := generatedClient |}, None)
      end
  end.

Definition common (c : Client) : service := {| client := Some c |}.
Definition Admins (c : Client) : service := common c.
Definition Families (c : Client) : service := common c.
Definition Fractions (c : Client) : service := common c.
Definition Ghetto (c : Client) : service := common c.
Definition Leadership (c : Client) : service := common c.
Definition Map (c : Client) : service := common c.
Definition Online (c : Client) : service := common c.
Definition Player (c : Client) : service := common c.
Definition Sobes (c : Client) : service := common c.
Definition Status_ (c : Client) : service := common c.

Definition WithBaseURL (url : string) : Option :=
  fun c _ => ret (c, url, None).

Definition WithTimeout (timeout : Z) : Option :=
  fun c baseURL =>
    ret ({| Transport := Transport c; CheckRedirect := CheckRedirect c;
            Jar := Jar c; Timeout := timeout |},
         baseURL, None).

Definition WithHTTPClient (customClient : option http_Client) : Option :=
  fun _ baseURL =>
    c <- deref customClient ;;
    ret (c, baseURL, None).

(** [s.client.internalClient], for a facade [s]. *)
Definition internal (s : service) : M (option ClientWithResponses) :=
  c <- deref (client s) ;;
  ret (internalClient c).

(** The body every facade method shares after its endpoint call:
    [if err != nil { return nil, err }] and then
    [return unpackResponse(resp.JSON200, resp.HTTPResponse, err)]. *)
Definition after_call {T : Type} (res : option (envelope T) * option error)
  : M (option T * option error) :=
  let '(resp, err) := res in
  match err with
  | Some _ => ret (None, err)
  | None =>
      r <- deref resp ;;
      unpackResponse (JSON200 r) (HTTPResponse r) err
  end.

Definition AdminsService_Get (s : service) (ctx : context) (serverID : Z)
  : M (option AdminsResponse * option error) :=
  let params := mkGetServerAdminsV2AdminsGetParams serverID in
  g <- internal s ;;
  res <- GetServerAdminsV2AdminsGetWithResponse g ctx params ;;
  after_call res.

Definition FamiliesService_List (s : service) (ctx : context) (serverID : Z)
  : M (option FamilyListResponse * option error) :=
  let params := mkGetFamiliesV2FamiliesGetParams serverID in
  g <- internal s ;;
  res <- GetFamiliesV2FamiliesGetWithResponse g ctx params ;;
  after_call res.

Definition FamiliesService_Get (s : service) (ctx : context) (serverID famID : Z)
  : M (option FamilyResponse * option error) :=
  let params := mkGetFamilyV2FamilyGetParams serverID famID in
  g <- internal s ;;
  res <- GetFamilyV2FamilyGetWithResponse g ctx params ;;
  after_call res.

Definition FractionsService_List (s : service) (ctx : context) (serverID : Z)
  : M (option FractionsListResponse * option error) :=
  let params := mkGetFractionsListV2FractionsGetParams serverID in
  g <- internal s ;;
  res <- GetFractionsListV2FractionsGetWithResponse g ctx params ;;
  after_call res.

Definition FractionsService_GetMembers (s : service) (ctx : context)
    (serverID : Z) (fractionID : string)
  : M (option FractionResponse * option error) :=
  let params := mkGetFractionMembersV2FractionGetParams serverID fractionID in
  g <- internal s ;;
  res <- GetFractionMembersV2FractionGetWithResponse g ctx params ;;
  after_call res.

Definition GhettoService_Get (s : service) (ctx : context) (serverID : Z)
  : M (option GhettoResponse * option error) :=
  let params := mkGetGhettoListV2GhettoGetParams serverID in
  g <- internal s ;;
  res <- GetGhettoListV2GhettoGetWithResponse g ctx params ;;
  after_call res.

Definition LeadershipService_GetLeaders (s : service) (ctx : context) (serverID : Z)
  : M (option LeadersResponse * option error) :=
  let params := mkGetLeadersListV2LeadersGetParams serverID in
  g <- internal s ;;
  res <- GetLeadersListV2LeadersGetWithResponse g ctx params ;;
  after_call res.

Definition LeadershipService_GetSubleaders (s : service) (ctx : context) (serverID : Z)
  : M (option SubleadersResponse * option error) :=
  let params := mkGetSubleadersListV2SubleadersGetParams serverID in
  g <- internal s ;;
  res <- GetSubleadersListV2SubleadersGetWithResponse g ctx params ;;
  after_call res.

Definition MapService_Get (s : service) (ctx : context) (serverID : Z)
  : M (option MapResponse * option error) :=
  let params := mkGetPropertyMapWithPoiV2MapGetParams serverID in
  g <- internal s ;;
  res <- GetPropertyMapWithPoiV2MapGetWithResponse g ctx params ;;
  after_call res.

Definition OnlineService_Get (s : service) (ctx : context) (serverID : Z)
  : M (option OnlinePlayersResponse * option error) :=
  let params := mkGetOnlineListV2OnlineGetParams serverID in
  g <- internal s ;;
  res <- GetOnlineListV2OnlineGetWithResponse g ctx params ;;
  after_call res.

Definition PlayerService_Find (s : service) (ctx : context)
    (serverID : Z) (nickname : string)
  : M (option PlayerResponse * option error) :=
  let params := mkFindPlayerV2PlayerFindGetParams serverID nickname in
  g <- internal s ;;
  res <- FindPlayerV2PlayerFindGetWithResponse g ctx params ;;
  after_call res.

Definition SobesService_Get (s : service) (ctx : context) (serverID : Z)
  : M (option SobesResponse * option error) :=
  let params := mkGetSobesListV2SobesGetParams serverID in
  g <- internal s ;;
  res <- GetSobesListV2SobesGetWithResponse g ctx params ;;
  after_call res.

Definition StatusService_Get (s : service) (ctx : context)
  : M (option StatusResponse * option error) :=
  g <- internal s ;;
  res <- GetStatusV2StatusGetWithResponse g ctx ;;
  after_call res.

End Depsclient.

Arguments HTTPResponse {T} _.
Arguments JSON200 {T} _.

(** ** The facade methods as one table *)

Section Methods.

Context {context : Type} {api : @ClientWithResponsesInterface context}.

Inductive method : Type :=
| Admins_Get | Families_List | Families_Get | Fractions_List
| Fractions_GetMembers | Ghetto_Get | Leadership_GetLeaders
| Leadership_GetSubleaders | Map_Get | Online_Get | Player_Find
| Sobes_Get | Status_Get.

Definition all_methods : list method :=
  [Admins_Get; Families_List; Families_Get; Fractions_List;
   Fractions_GetMembers; Ghetto_Get; Leadership_GetLeaders;
   Leadership_GetSubleaders; Map_Get; Online_Get; Player_Find;
   Sobes_Get; Status_Get].

(** What a method returns a pointer to. *)
Definition payload (m : method) : Type :=
  match m with
  | Admins_Get => AdminsResponse
  | Families_List => FamilyListResponse
  | Families_Get => FamilyResponse
  | Fractions_List => FractionsListResponse
  | Fractions_GetMembers => FractionResponse
  | Ghetto_Get => GhettoResponse
  | Leadership_GetLeaders => LeadersResponse
  | Leadership_GetSubleaders => SubleadersResponse
  | Map_Get => MapResponse
  | Online_Get => OnlinePlayersResponse
  | Player_Find => PlayerResponse
  | Sobes_Get => SobesResponse
  | Status_Get => StatusResponse
  end.

(** What a method takes after the context. *)
Definition args (m : method) : Type :=
  match m with
  | Families_Get => (Z * Z)%type
  | Fractions_GetMembers | Player_Find => (Z * string)%type
  | Status_Get => unit
  | _ => Z
  end.

Definition result (m : method) : Type := M (option (payload m) * option error).

(** The facade method itself. *)
Definition run (m : method) : service -> context -> args m -> result m :=
  match m return service -> context -> args m -> result m with
  | Admins_Get => AdminsService_Get
  | Families_List => FamiliesService_List
  | Families_Get => fun s ctx a => FamiliesService_Get s ctx (fst a) (snd a)
  | Fractions_List => FractionsService_List
  | Fractions_GetMembers =>
      fun s ctx a => FractionsService_GetMembers s ctx (fst a) (snd a)
  | Ghetto_Get => GhettoService_Get
  | Leadership_GetLeaders => LeadershipService_GetLeaders
  | Leadership_GetSubleaders => LeadershipService_GetSubleaders
  | Map_Get => MapService_Get
  | Online_Get => OnlineService_Get
  | Player_Find => fun s ctx a => PlayerService_Find s ctx (fst a) (snd a)
  | Sobes_Get => SobesService_Get
  | Status_Get => fun s ctx _ => StatusService_Get s ctx
  end.

(** The generated operation a method calls, on the parameters it builds. *)
Definition endpoint (m : method)
  : option ClientWithResponses -> context -> args m -> called (payload m) :=
  match m return option ClientWithResponses -> context -> args m -> called (payload m) with
  | Admins_Get => fun g ctx a =>
      GetServerAdminsV2AdminsGetWithResponse g ctx (mkGetServerAdminsV2AdminsGetParams a)
  | Families_List => fun g ctx a =>
      GetFamiliesV2FamiliesGetWithResponse g ctx (mkGetFamiliesV2FamiliesGetParams a)
  | Families_Get => fun g ctx a =>
      GetFamilyV2FamilyGetWithResponse g ctx (mkGetFamilyV2FamilyGetParams (fst a) (snd a))
  | Fractions_List => fun g ctx a =>
      GetFractionsListV2FractionsGetWithResponse g ctx
        (mkGetFractionsListV2FractionsGetParams a)
  | Fractions_GetMembers => fun g ctx a =>
      GetFractionMembersV2FractionGetWithResponse g ctx
        (mkGetFractionMembersV2FractionGetParams (fst a) (snd a))
  | Ghetto_Get => fun g ctx a =>
      GetGhettoListV2GhettoGetWithResponse g ctx (mkGetGhettoListV2GhettoGetParams a)
  | Leadership_GetLeaders => fun g ctx a =>
      GetLeadersListV2LeadersGetWithResponse g ctx (mkGetLeadersListV2LeadersGetParams a)
  | Leadership_GetSubleaders => fun g ctx a =>
      GetSubleadersListV2SubleadersGetWithResponse g ctx
        (mkGetSubleadersListV2SubleadersGetParams a)
  | Map_Get => fun g ctx a =>
      GetPropertyMapWithPoiV2MapGetWithResponse g ctx
        (mkGetPropertyMapWithPoiV2MapGetParams a)
  | Online_Get => fun g ctx a =>
      GetOnlineListV2OnlineGetWithResponse g ctx (mkGetOnlineListV2OnlineGetParams a)
  | Player_Find => fun g ctx a =>
      FindPlayerV2PlayerFindGetWithResponse g ctx
        (mkFindPlayerV2PlayerFindGetParams (fst a) (snd a))
  | Sobes_Get => fun g ctx a =>
      GetSobesListV2SobesGetWithResponse g ctx (mkGetSobesListV2SobesGetParams a)
  | Status_Get => fun g ctx _ => GetStatusV2StatusGetWithResponse g ctx
  end.

End Methods.

(** ** Test doubles *)

(** A generated client whose every operation returns [out]. *)
Definition fixed_api (out : option (envelope nat) * option error)
  : @ClientWithResponsesInterface unit := {|
  AdminsResponse := nat;
  FamilyListResponse := nat;
  FamilyResponse := nat;
  FractionsListResponse := nat;
  FractionResponse := nat;
  GhettoResponse := nat;
  LeadersResponse := nat;
  SubleadersResponse := nat;
  MapResponse := nat;
  OnlinePlayersResponse := nat;
  PlayerResponse := nat;
  SobesResponse := nat;
  StatusResponse := nat;
  GetServerAdminsV2AdminsGetWithResponse := fun _ _ _ => ret out;
  GetFamiliesV2FamiliesGetWithResponse := fun _ _ _ => ret out;
  GetFamilyV2FamilyGetWithResponse := fun _ _ _ => ret out;
  GetFractionsListV2FractionsGetWithResponse := fun _ _ _ => ret out;
  GetFractionMembersV2FractionGetWithResponse := fun _ _ _ => ret out;
  GetGhettoListV2GhettoGetWithResponse := fun _ _ _ => ret out;
  GetLeadersListV2LeadersGetWithResponse := fun _ _ _ => ret out;
  GetSubleadersListV2SubleadersGetWithResponse := fun _ _ _ => ret out;
  GetPropertyMapWithPoiV2MapGetWithResponse := fun _ _ _ => ret out;
  GetOnlineListV2OnlineGetWithResponse := fun _ _ _ => ret out;
  FindPlayerV2PlayerFindGetWithResponse := fun _ _ _ => ret out;
  GetSobesListV2SobesGetWithResponse := fun _ _ _ => ret out;
  GetStatusV2StatusGetWithResponse := fun _ _ => ret out
|}.

(** A transport error, as [http.Client.Do] reports one. *)
Definition refused : error :=
  foreignError "*url.Error" (Dyn 0) "Get /v2/player/find: dial tcp: connection refused"
    (Some (foreignError "*net.OpError" (Dyn 1) "dial tcp: connection refused" None)).

(** An option that reports a failure. *)
Definition failing_option (e : error) : Option :=
  fun c baseURL => ret (c, baseURL, Some e).

Definition bad_option : error := errorString (Dyn 0) "bad option".

Definition custom_client : http_Client :=
  {| Transport := Some 7%nat; CheckRedirect := None; Jar := Some 9%nat;
     Timeout := 2 * time_Second |}.

Definition get_request : http_Request :=
  {| Method := "GET"; URL := "https://api.depscian.tech/v2/status";
     Header := Some {[ "Accept" := ["application/json"] ]} |}.

Definition not_found_response : http_Response :=
  {| Status := "404 Not Found"; StatusCode := 404 |}.

Definition ok_response : http_Response :=
  {| Status := "200 OK"; StatusCode := 200 |}.

Definition server_error_response : http_Response :=
  {| Status := "500 Internal Server Error"; StatusCode := 500 |}.

(** ** Vocabulary of the statements *)

(** The condition under which [unpackResponse] hands the decoded body to the
    caller. *)
Definition usable {T : Type} (v : option T) (r : http_Response) (err : option error)
  : Prop :=
  err = None /\ 200 <= StatusCode r < 300 /\ v <> None.

(** The HTTP client [NewClient] starts from. *)
Definition initial_httpClient : http_Client :=
  {| Transport := None; CheckRedirect := None; Jar := None;
     Timeout := 30 * time_Second |}.

(** The client [NewClient] returns when its options leave it with the HTTP
    client [c] and the base URL [u]. *)
Definition built {context : Type} (apiKey : string) (c : http_Client) (u : string)
  : @Client context :=
  {| internalClient :=
       Some {| Server := u; Client_ := c;
               RequestEditors := [authInterceptor apiKey] |} |}.

(** The ten facades of a client. *)
Definition facades {context : Type} (c : @Client context) : list service :=
  [Admins c; Families c; Fractions c; Ghetto c; Leadership c; Map c; Online c;
   Player c; Sobes c; Status_ c].

(** The condition under which [unpackResponse] answers with [ErrNotFound]. *)
Definition absent {T : Type} (v : option T) (r : http_Response) : Prop :=
  StatusCode r = 404 \/ (200 <= StatusCode r < 300 /\ v = None).

(** The options the package offers, as data: [WithBaseURL], [WithTimeout] and
    [WithHTTPClient] on a non-nil client. *)
Inductive builtin : Type :=
| UseBaseURL (url : string)
| UseTimeout (timeout : Z)
| UseHTTPClient (customClient : http_Client).

Definition option_of (b : builtin) : Option :=
  match b with
  | UseBaseURL url => WithBaseURL url
  | UseTimeout timeout => WithTimeout timeout
  | UseHTTPClient customClient => WithHTTPClient (Some customClient)
  end.

Definition sets_url (b : builtin) : bool :=
  match b with UseBaseURL _ => true | _ => false end.

Definition replaces_client (b : builtin) : bool :=
  match b with UseHTTPClient _ => true | _ => false end.

Definition sets_timeout (b : builtin) : bool :=
  match b with UseBaseURL _ => false | _ => true end.

(** The base URL of the last [WithBaseURL] in a list, the default without one. *)
Definition chosen_url (l : list builtin) : string :=
  match List.find sets_url (List.rev l) with
  | Some (UseBaseURL url) => url
  | _ => defaultBaseURL
  end.

(** The client of the last [WithHTTPClient] in a list, the initial one
    without one. *)
Definition chosen_base (l : list builtin) : http_Client :=
  match List.find replaces_client (List.rev l) with
  | Some (UseHTTPClient customClient) => customClient
  | _ => initial_httpClient
  end.

(** The timeout the last [WithTimeout] or [WithHTTPClient] in a list brings,
    30 seconds without one. *)
Definition chosen_timeout (l : list builtin) : Z :=
  match List.find sets_timeout (List.rev l) with
  | Some (UseTimeout timeout) => timeout
  | Some (UseHTTPClient customClient) => Timeout customClient
  | _ => 30 * time_Second
  end.

Definition chosen_httpClient (l : list builtin) : http_Client :=
  {| Transport := Transport (chosen_base l);
     CheckRedirect := CheckRedirect (chosen_base l);
     Jar := Jar (chosen_base l);
     Timeout := chosen_timeout l |}.

(** A request that already carries two API keys under the canonical header
    name and, written into the map directly, one under another spelling. *)
Definition keyed_request : http_Request :=
  {| Method := "GET"; URL := "https://api.depscian.tech/v2/online";
     Header := Some {[ "X-Api-Key" := ["old"; "older"]; "x-api-key" := ["raw"];
                      "Accept" := ["*/*"] ]} |}.

(** * Properties *)

(** ** Strings and [fmt.Errorf] *)

Lemma append_cons (c : ascii) (s t : string) : String c s +:+ t = String c (s +:+ t).
Proof. reflexivity. Qed.

Lemma append_empty_r (s : string) : s +:+ "" = s.
Proof.
  induction s as [|c s IH]; [reflexivity|]. now rewrite append_cons, IH.
Qed.

Lemma prefix_refl (s : string) : String.prefix s s = true.
Proof.
  induction s as [|c s IH]; simpl; [reflexivity|].
  destruct (ascii_dec c c) as [_|Hne]; [exact IH | now destruct Hne].
Qed.

Lemma strings_Contains_append (p s : string) : strings_Contains (p +:+ s) s = true.
Proof.
  induction p as [|c p IH].
  - change ("" +:+ s) with s.
    destruct s; cbn [strings_Contains]; now rewrite prefix_refl.
  - rewrite append_cons. cbn [strings_Contains]. rewrite IH. apply orb_true_r.
Qed.

Ltac run_Errorf :=
  unfold fmt_Errorf, bind, alloc, ret; cbn; rewrite ?append_empty_r; reflexivity.

Lemma Errorf_client_execution (e : error) (h : heap) :
  fmt_Errorf "client execution error: %w" (aError e) h
  = Ret (wrapError (Dyn h) ("client execution error: " +:+ Error e) e) (S h).
Proof. run_Errorf. Qed.

Lemma Errorf_api_error (status : string) (h : heap) :
  fmt_Errorf "api error: status %s" (aString status) h
  = Ret (errorString (Dyn h) ("api error: status " +:+ status)) (S h).
Proof. run_Errorf. Qed.

Lemma Errorf_failed_option (e : error) (h : heap) :
  fmt_Errorf "failed to apply option: %w" (aError e) h
  = Ret (wrapError (Dyn h) ("failed to apply option: " +:+ Error e) e) (S h).
Proof. run_Errorf. Qed.

(** ** [unpackResponse], branch by branch *)

Section Unpack.

Context {T : Type}.
Implicit Types (v : option T) (r : http_Response) (e : error) (h : heap).

Lemma unpack_transport v (p : option http_Response) e h :
  unpackResponse v p (Some e) h
  = Ret (None, Some (wrapError (Dyn h) ("client execution error: " +:+ Error e) e)) (S h).
Proof.
  unfold unpackResponse, bind. now rewrite Errorf_client_execution.
Qed.

Lemma unpack_not_found v r h :
  StatusCode r = 404 ->
  unpackResponse v (Some r) None h = Ret (None, Some ErrNotFound) h.
Proof.
  intros H. unfold unpackResponse, bind, deref, ret, http_StatusNotFound.
  now rewrite H.
Qed.

Lemma unpack_status v r h :
  StatusCode r <> 404 -> StatusCode r < 200 \/ 300 <= StatusCode r ->
  unpackResponse v (Some r) None h
  = Ret (None, Some (errorString (Dyn h) ("api error: status " +:+ Status r))) (S h).
Proof.
  intros Hnf Hout. unfold unpackResponse, bind, deref, ret, http_StatusNotFound.
  destruct (Z.eqb_spec (StatusCode r) 404) as [|_]; [contradiction|].
  replace ((StatusCode r <? 200) || (StatusCode r >=? 300)) with true.
  - now rewrite Errorf_api_error.
  - symmetry. apply orb_true_iff.
    destruct Hout; [left; now apply Z.ltb_lt | right; apply Z.geb_le; lia].
Qed.

Lemma unpack_success v r h :
  200 <= StatusCode r < 300 ->
  unpackResponse v (Some r) None h
  = Ret (match v with
         | Some _ => (v, None)
         | None => (None, Some ErrNotFound)
         end) h.
Proof.
  intros Hin. unfold unpackResponse, bind, deref, ret, http_StatusNotFound.
  destruct (Z.eqb_spec (StatusCode r) 404) as [E|_]; [lia|].
  replace ((StatusCode r <? 200) || (StatusCode r >=? 300)) with false.
  - now destruct v.
  - symmetry. apply orb_false_iff. split.
    + apply Z.ltb_ge. lia.
    + rewrite Z.geb_leb. apply Z.leb_gt. lia.
Qed.

Lemma unpack_returns v r h :
  exists res h', unpackResponse v (Some r) None h = Ret res h'.
Proof.
  destruct (Z.eq_dec (StatusCode r) 404) as [E404|N404].
  - rewrite (unpack_not_found _ _ _ E404). eauto.
  - destruct (Z_lt_dec (StatusCode r) 200) as [Lo|Lo];
      [|destruct (Z_le_dec 300 (StatusCode r)) as [Hi|Hi]].
    + rewrite (unpack_status _ _ _ N404 (or_introl Lo)). eauto.
    + rewrite (unpack_status _ _ _ N404 (or_intror Hi)). eauto.
    + rewrite unpack_success by lia. eauto.
Qed.

(** C1. For every decoded-body pointer, HTTP response and transport error,
    [unpackResponse] returns; it returns the decoded body with a nil error
    exactly when the transport error is nil, the status code lies in
    [200, 300) and the body is non-nil, and in every other case a nil value
    with a non-nil error, so a return without error is never nil. *)
Theorem unpackResponse_value_iff_usable v r (err : option error) h :
  exists res h',
    unpackResponse v (Some r) err h = Ret res h' /\
    (res = (v, None) <-> usable v r err) /\
    (~ usable v r err -> fst res = None /\ snd res <> None) /\
    (snd res = None -> fst res <> None).
Proof.
  assert (Herr : forall (w : error) (x : option T * option error),
             x = (None, Some w) -> ~ usable v r err ->
             (x = (v, None) <-> usable v r err) /\
             (~ usable v r err -> fst x = None /\ snd x <> None) /\
             (snd x = None -> fst x <> None)).
  { intros w x -> Hn. split; [split; [intros [=] | intros Hu; now destruct Hn]|].
    split; [intros _; split; [reflexivity | discriminate] | intros [=]]. }
  destruct err as [e|].
  - rewrite unpack_transport. eexists _, _. split; [reflexivity|].
    eapply Herr; [reflexivity|]. intros [[=] _].
  - destruct (Z.eq_dec (StatusCode r) 404) as [E404|N404].
    + rewrite (unpack_not_found _ _ _ E404). eexists _, _. split; [reflexivity|].
      eapply Herr; [reflexivity|]. intros (_ & Hr & _). lia.
    + destruct (Z_lt_dec (StatusCode r) 200) as [Lo|Lo];
        [|destruct (Z_le_dec 300 (StatusCode r)) as [Hi|Hi]].
      * rewrite (unpack_status _ _ _ N404 (or_introl Lo)).
        eexists _, _. split; [reflexivity|].
        eapply Herr; [reflexivity|]. intros (_ & Hr & _). lia.
      * rewrite (unpack_status _ _ _ N404 (or_intror Hi)).
        eexists _, _. split; [reflexivity|].
        eapply Herr; [reflexivity|]. intros (_ & Hr & _). lia.
      * rewrite unpack_success by lia. eexists _, _. split; [reflexivity|].
        destruct v as [x|].
        -- assert (Hu : usable (Some x) r None).
           { split; [reflexivity|]. split; [lia | discriminate]. }
           split; [split; [intros _; exact Hu | reflexivity]|].
           split; [intros Hn; now destruct Hn | discriminate].
        -- eapply Herr; [reflexivity|]. intros (_ & _ & Hv). now destruct Hv.
Qed.

(** C3. With a nil transport error and status 404, [unpackResponse] returns
    a nil value and the sentinel [ErrNotFound] itself, whatever the decoded
    body, nil or not; the result is the sentinel by identity and for
    [errors.Is]. *)
Theorem unpackResponse_404_is_ErrNotFound v r h :
  StatusCode r = 404 ->
  unpackResponse v (Some r) None h = Ret (None, Some ErrNotFound) h /\
  unpackResponse v (Some r) None h = unpackResponse (@None T) (Some r) None h /\
  error_same ErrNotFound ErrNotFound = true /\
  errors_Is (Some ErrNotFound) (Some ErrNotFound) = true.
Proof.
  intros H. rewrite !(unpack_not_found _ _ _ H). now repeat split.
Qed.

(** C4. With a nil transport error, a status code in [200, 300) and a nil
    decoded body, [unpackResponse] returns a nil value and [ErrNotFound],
    the very result it gives for a 404 with any body. *)
Theorem unpackResponse_nil_body_is_ErrNotFound r h :
  200 <= StatusCode r < 300 ->
  unpackResponse (@None T) (Some r) None h = Ret (None, Some ErrNotFound) h /\
  forall v r404, StatusCode r404 = 404 ->
    unpackResponse (@None T) (Some r) None h = unpackResponse v (Some r404) None h.
Proof.
  intros H. rewrite (unpack_success _ _ _ H). split; [reflexivity|].
  intros v r404 E. now rewrite (unpack_not_found _ _ _ E).
Qed.

(** C5. With a nil transport error and a status code outside [200, 300)
    other than 404, [unpackResponse] returns a nil value and a fresh error
    whose message is "api error: status " followed by the raw status text,
    so it contains that text; the error is not [ErrNotFound], neither by
    identity nor for [errors.Is]. *)
Theorem unpackResponse_status_error v r h :
  StatusCode r <> 404 -> StatusCode r < 200 \/ 300 <= StatusCode r ->
  exists w,
    unpackResponse v (Some r) None h = Ret (None, Some w) (S h) /\
    Error w = "api error: status " +:+ Status r /\
    strings_Contains (Error w) (Status r) = true /\
    w <> ErrNotFound /\
    error_same w ErrNotFound = false /\
    errors_Is (Some w) (Some ErrNotFound) = false.
Proof.
  intros Hnf Hout. eexists. split; [exact (unpack_status _ _ _ Hnf Hout)|].
  split; [reflexivity|]. split.
  - cbn [Error]. apply strings_Contains_append.
  - repeat split; try reflexivity. discriminate.
Qed.

(** C10. With a non-nil transport error [unpackResponse] returns the wrapped
    error without looking at the HTTP response: the result is the same for
    every response pointer, nil included, and is never a panic.  The
    response is dereferenced only when the transport error is nil, where a
    nil response panics and a non-nil one does not. *)
Theorem unpackResponse_ignores_response_on_error v e h :
  (forall p q : option http_Response,
     unpackResponse v p (Some e) h = unpackResponse v q (Some e) h) /\
  unpackResponse v None (Some e) h
  = Ret (None, Some (wrapError (Dyn h) ("client execution error: " +:+ Error e) e)) (S h) /\
  unpackResponse v None None h = Panic /\
  (forall r, unpackResponse v (Some r) None h <> Panic).
Proof.
  split; [|split; [|split]].
  - intros p q. now rewrite !unpack_transport.
  - apply unpack_transport.
  - reflexivity.
  - intros r. destruct (unpack_returns v r h) as (res & h' & E).
    rewrite E. discriminate.
Qed.

End Unpack.

(** ** The facade *)

Section Facade.

Context {context : Type} {api : @ClientWithResponsesInterface context}.

Lemma after_call_error {T : Type} (resp : option (envelope T)) (e : error) (h : heap) :
  after_call (resp, Some e) h = Ret (None, Some e) h.
Proof. reflexivity. Qed.

Lemma after_call_response {T : Type} (env : envelope T) (h : heap) :
  after_call (Some env, None) h = unpackResponse (JSON200 env) (HTTPResponse env) None h.
Proof. reflexivity. Qed.

(** Every facade method is its endpoint call followed by the shared tail. *)
Lemma run_endpoint (m : method) (c : Client) (ctx : context) (a : args m) (h : heap) :
  run m (common c) ctx a h
  = match endpoint m (internalClient c) ctx a h with
    | Ret res h' => after_call res h'
    | Panic => Panic
    end.
Proof. destruct m; reflexivity. Qed.

(** C2, as the code has it.  Whatever the facade method, when its endpoint
    call returns a non-nil transport error the caller receives a nil value
    and that very error, unchanged: the method returns before
    [unpackResponse] is called, so nothing is wrapped.  When the call returns
    a response and a nil error, the method's result is [unpackResponse] of
    the decoded body and the HTTP response.  [unpackResponse] itself, handed
    a non-nil transport error, wraps it under "client execution error: " and
    the wrapper unwraps to it. *)
Theorem facade_passes_transport_error_through
    (m : method) (c : Client) (ctx : context) (a : args m) (h : heap)
    (resp : option (envelope (payload m))) (err : option error) (h' : heap) :
  endpoint m (internalClient c) ctx a h = Ret (resp, err) h' ->
  (forall e, err = Some e -> run m (common c) ctx a h = Ret (None, Some e) h') /\
  (forall env, err = None -> resp = Some env ->
     run m (common c) ctx a h
     = unpackResponse (JSON200 env) (HTTPResponse env) None h') /\
  (forall (v : option (payload m)) (p : option http_Response) (e : error) (k : heap),
     exists w,
       unpackResponse v p (Some e) k = Ret (None, Some w) (S k) /\
       Error w = "client execution error: " +:+ Error e /\
       errors_Unwrap (Some w) = Some e).
Proof.
  intros E. rewrite run_endpoint, E. split; [|split].
  - now intros e ->.
  - now intros env -> ->.
  - intros v p e k. eexists. split; [apply unpack_transport|]. now split.
Qed.

End Facade.

(** ** Construction *)

Section Construction.

Context {context : Type}.
Implicit Types (opts pre post : list Option) (c : http_Client) (u apiKey : string)
  (h : heap).

Lemma apply_opts_cons (opt : Option) opts c u h :
  apply_opts (context := context) (opt :: opts) c u h
  = match opt c u h with
    | Ret (_, _, Some err) h1 =>
        Ret (inl (None, Some (wrapError (Dyn h1)
                                ("failed to apply option: " +:+ Error err) err)))
            (S h1)
    | Ret (c', u', None) h1 => apply_opts opts c' u' h1
    | Panic => Panic
    end.
Proof.
  cbn [apply_opts]. unfold bind at 1.
  destruct (opt c u h) as [[[c' u'] [err|]] h1|]; [|reflexivity|reflexivity].
  unfold bind. now rewrite Errorf_failed_option.
Qed.

(** The loop runs a list of options as its first part and then, from where
    that left the HTTP client and the base URL, its second part. *)
Lemma apply_opts_app pre post c u h :
  apply_opts (context := context) (pre ++ post) c u h
  = match apply_opts pre c u h with
    | Ret (inr (c', u')) h1 => apply_opts post c' u' h1
    | Ret (inl early) h1 => Ret (inl early) h1
    | Panic => Panic
    end.
Proof.
  revert c u h. induction pre as [|opt pre IH]; intros c u h; [reflexivity|].
  change (((opt :: pre) ++ post)%list) with (opt :: (pre ++ post))%list.
  rewrite !apply_opts_cons.
  destruct (opt c u h) as [[[c' u'] [err|]] h1|]; [reflexivity| |reflexivity].
  apply IH.
Qed.

(** The loop leaves early only with a nil client and a non-nil error. *)
Lemma apply_opts_early opts c u h early h1 :
  apply_opts (context := context) opts c u h = Ret (inl early) h1 ->
  exists w, early = (None, Some w).
Proof.
  revert c u h. induction opts as [|opt opts IH]; intros c u h; [discriminate|].
  rewrite apply_opts_cons.
  destruct (opt c u h) as [[[c' u'] [err|]] h2|]; [|apply IH|discriminate].
  intros [= <- _]. eauto.
Qed.

Lemma NewClient_loop apiKey opts h :
  NewClient apiKey opts h
  = match apply_opts (context := context) opts initial_httpClient defaultBaseURL h with
    | Ret (inr (c, u)) h1 => Ret (Some (built apiKey c u), None) h1
    | Ret (inl early) h1 => Ret early h1
    | Panic => Panic
    end.
Proof.
  unfold NewClient, bind. fold initial_httpClient.
  destruct (apply_opts (context := context) opts initial_httpClient defaultBaseURL h)
    as [[early|[c u]] h1|]; reflexivity.
Qed.

Lemma NewClient_built apiKey opts h c u h1 :
  apply_opts (context := context) opts initial_httpClient defaultBaseURL h = Ret (inr (c, u)) h1 ->
  NewClient (context := context) apiKey opts h = Ret (Some (built apiKey c u), None) h1.
Proof. intros E. now rewrite NewClient_loop, E. Qed.

(** A client that [NewClient] returns without error is a [built] one. *)
Lemma NewClient_success apiKey opts h (cl : @Client context) h1 :
  NewClient apiKey opts h = Ret (Some cl, None) h1 ->
  exists c u, cl = built apiKey c u.
Proof.
  rewrite NewClient_loop.
  destruct (apply_opts (context := context) opts initial_httpClient defaultBaseURL h)
    as [[early|[c u]] h2|] eqn:E; [| |discriminate].
  - destruct (apply_opts_early _ _ _ _ _ _ E) as [w ->]. discriminate.
  - intros [= <- _]. eauto.
Qed.

Lemma authInterceptor_sets apiKey (ctx : context) (req : http_Request)
    (hd : http_Header) h :
  Header req = Some hd ->
  authInterceptor apiKey ctx req h
  = Ret ({| Method := Method req; URL := URL req;
            Header := Some (<["X-Api-Key" := [apiKey]]> hd) |}, None) h.
Proof. intros E. unfold authInterceptor, bind. now rewrite E. Qed.

Lemma facade_is_common (cl : @Client context) (s : service) :
  In s (facades cl) -> s = common cl.
Proof.
  unfold facades. simpl. intros Hs.
  repeat (destruct Hs as [<-|Hs]; [reflexivity|]). destruct Hs.
Qed.

(** C6. Options run in the order they are passed, each from the HTTP client
    and base URL the ones before it left, and the last one to touch a field
    decides it.  After any options that ran without failing, [WithTimeout d]
    followed by [WithHTTPClient custom] gives a client whose HTTP client is
    [custom] as a whole, so its timeout is [custom]'s and not [d]. *)
Theorem options_run_in_order_last_wins apiKey pre h c u h1 :
  apply_opts (context := context) pre initial_httpClient defaultBaseURL h
  = Ret (inr (c, u)) h1 ->
  (forall d custom,
     exists cl g,
       NewClient (context := context) apiKey
         (pre ++ [WithTimeout d; WithHTTPClient (Some custom)]) h
       = Ret (Some cl, None) h1 /\
       internalClient cl = Some g /\
       Client_ g = custom /\ Timeout (Client_ g) = Timeout custom) /\
  (forall post,
     apply_opts (context := context) (pre ++ post) initial_httpClient defaultBaseURL h
     = apply_opts post c u h1) /\
  (forall u', NewClient (context := context) apiKey (pre ++ [WithBaseURL u']) h
              = Ret (Some (built apiKey c u'), None) h1) /\
  (forall d, NewClient (context := context) apiKey (pre ++ [WithTimeout d]) h
             = Ret (Some (built apiKey
                            {| Transport := Transport c;
                               CheckRedirect := CheckRedirect c;
                               Jar := Jar c; Timeout := d |} u), None) h1) /\
  (forall custom,
     NewClient (context := context) apiKey (pre ++ [WithHTTPClient (Some custom)]) h
     = Ret (Some (built apiKey custom u), None) h1).
Proof.
  intros E.
  assert (Happ : forall post,
             apply_opts (context := context) (pre ++ post)
               initial_httpClient defaultBaseURL h
             = apply_opts post c u h1).
  { intros post. now rewrite apply_opts_app, E. }
  split; [|split; [exact Happ|split; [|split]]].
  - intros d custom. exists (built apiKey custom u). eexists.
    split; [|split; [reflexivity|split; reflexivity]].
    apply NewClient_built. now rewrite Happ.
  - intros u'. apply NewClient_built. now rewrite Happ.
  - intros d. apply NewClient_built. now rewrite Happ.
  - intros custom. apply NewClient_built. now rewrite Happ.
Qed.

(** C7. The client [NewClient] returns holds exactly one request editor, the
    interceptor built around [apiKey].  Whichever of the ten facades a call
    is issued on and whichever its method, the call runs its endpoint on
    that one generated client, so the interceptor decorates its request; and
    on every request that has a header map, whatever the context, the
    editors leave the header "X-API-Key" set to the one value [apiKey] and
    report no error. *)
Theorem every_request_carries_api_key
    {api : @ClientWithResponsesInterface context}
    apiKey opts h (cl : @Client context) h1 :
  NewClient apiKey opts h = Ret (Some cl, None) h1 ->
  exists g,
    internalClient cl = Some g /\
    RequestEditors g = [authInterceptor apiKey] /\
    Forall (fun s => client s = Some cl) (facades cl) /\
    (forall (s : service) (m : method) (ctx : context) (a : args m) (k : heap),
       In s (facades cl) ->
       run m s ctx a k
       = match endpoint m (Some g) ctx a k with
         | Ret res k' => after_call res k'
         | Panic => Panic
         end) /\
    forall (ctx : context) (req : http_Request) (hd : http_Header) (k : heap),
      Header req = Some hd ->
      exists req',
        authInterceptor apiKey ctx req k = Ret (req', None) k /\
        applyEditors (RequestEditors g) ctx req k = Ret (req', None) k /\
        Header_Get (Header req') apiKeyHeader = apiKey /\
        Header_Get (Header req') "X-API-Key" = apiKey /\
        Header req' = Some (<["X-Api-Key" := [apiKey]]> hd) /\
        Method req' = Method req /\ URL req' = URL req.
Proof.
  intros E. destruct (NewClient_success _ _ _ _ _ E) as (c & u & ->).
  eexists. split; [reflexivity|]. split; [reflexivity|]. split; [|split].
  - unfold facades. repeat constructor.
  - intros s m ctx a k Hs. rewrite (facade_is_common _ _ Hs). apply run_endpoint.
  - intros ctx req hd k Hh. eexists.
    split; [exact (authInterceptor_sets apiKey ctx req hd k Hh)|].
    split.
    + cbn [applyEditors RequestEditors]. unfold bind.
      now rewrite (authInterceptor_sets apiKey ctx req hd k Hh).
    + assert (Hget : Header_Get (Some (<["X-Api-Key" := [apiKey]]> hd)) "X-API-Key"
                     = apiKey).
      { unfold Header_Get.
        change (CanonicalMIMEHeaderKey "X-API-Key") with "X-Api-Key".
        now rewrite lookup_insert_eq. }
      cbn [Header Method URL]. repeat split; exact Hget.
Qed.

(** C8. When the options before it ran without failing and an option
    returns a non-nil error, [NewClient] returns a nil client and a fresh
    error that wraps the option's error under "failed to apply option: ",
    whatever options follow: they are not run.  And [NewClient] never
    returns a client together with an error. *)
Theorem failing_option_aborts_NewClient
    apiKey pre (opt : Option) post h c u h1 c' u' (e : error) h2 :
  apply_opts (context := context) pre initial_httpClient defaultBaseURL h
  = Ret (inr (c, u)) h1 ->
  opt c u h1 = Ret (c', u', Some e) h2 ->
  NewClient (context := context) apiKey (pre ++ opt :: post) h
  = Ret (None, Some (wrapError (Dyn h2) ("failed to apply option: " +:+ Error e) e))
        (S h2) /\
  errors_Unwrap (Some (wrapError (Dyn h2) ("failed to apply option: " +:+ Error e) e))
  = Some e /\
  (forall key opts k (cl : option (@Client context)) (err : error) k',
     NewClient key opts k = Ret (cl, Some err) k' -> cl = None).
Proof.
  intros Epre Eopt. split; [|split; [reflexivity|]].
  - rewrite NewClient_loop, apply_opts_app, Epre, apply_opts_cons, Eopt. reflexivity.
  - intros key opts k cl err k'. rewrite NewClient_loop.
    destruct (apply_opts (context := context) opts initial_httpClient defaultBaseURL k)
      as [[early|[c0 u0]] k2|] eqn:E; [| |discriminate].
    + destruct (apply_opts_early _ _ _ _ _ _ E) as [w ->]. now intros [= <- _].
    + discriminate.
Qed.

(** C9. With no options [NewClient] returns, without error, a client whose
    base URL is the default "https://api.depscian.tech/v2" and whose HTTP
    client has a timeout of 30 seconds. *)
Theorem NewClient_without_options_has_defaults apiKey h :
  exists cl g,
    NewClient (context := context) apiKey [] h = Ret (Some cl, None) h /\
    internalClient cl = Some g /\
    Server g = defaultBaseURL /\
    Server g = "https://api.depscian.tech/v2" /\
    Timeout (Client_ g) = 30 * time_Second /\
    Timeout (Client_ g) = 30000000000.
Proof.
  exists (built apiKey initial_httpClient defaultBaseURL). eexists.
  repeat split; reflexivity.
Qed.

End Construction.

(** ** The statements at concrete inputs *)

Example canonical_api_key_header : CanonicalMIMEHeaderKey apiKeyHeader = "X-Api-Key".
Proof. reflexivity. Qed.

Example unpack_ok :
  unpackResponse (Some 7%nat) (Some ok_response) None 0%nat = Ret (Some 7%nat, None) 0%nat.
Proof. reflexivity. Qed.

Example unpack_500 :
  unpackResponse (Some 7%nat) (Some server_error_response) None 3%nat
  = Ret (None, Some (errorString (Dyn 3) "api error: status 500 Internal Server Error"))
        4%nat.
Proof. reflexivity. Qed.

Example unpack_refused :
  errors_Is
    (match unpackResponse (@None nat) None (Some refused) 2%nat with
     | Ret (_, err) _ => err
     | Panic => None
     end) (Some refused) = true.
Proof. reflexivity. Qed.

Lemma unpackResponse_404_witness :
  StatusCode not_found_response = 404 /\
  unpackResponse (Some 7%nat) (Some not_found_response) None 0%nat
  = Ret (None, Some ErrNotFound) 0%nat.
Proof.
  split; [reflexivity|].
  exact (proj1 (unpackResponse_404_is_ErrNotFound
                  (Some 7%nat) not_found_response 0%nat eq_refl)).
Defined.

Lemma unpackResponse_nil_body_witness :
  200 <= StatusCode ok_response < 300 /\
  unpackResponse (@None nat) (Some ok_response) None 0%nat
  = Ret (None, Some ErrNotFound) 0%nat.
Proof.
  assert (H : 200 <= StatusCode ok_response < 300) by (simpl; lia).
  split; [exact H|].
  exact (proj1 (unpackResponse_nil_body_is_ErrNotFound (T := nat) ok_response 0%nat H)).
Defined.

Lemma unpackResponse_status_error_witness :
  StatusCode server_error_response <> 404 /\
  (StatusCode server_error_response < 200 \/ 300 <= StatusCode server_error_response) /\
  exists w,
    unpackResponse (Some 7%nat) (Some server_error_response) None 0%nat
    = Ret (None, Some w) 1%nat /\
    Error w = "api error: status 500 Internal Server Error" /\
    strings_Contains (Error w) "500 Internal Server Error" = true /\
    w <> ErrNotFound /\
    error_same w ErrNotFound = false /\
    errors_Is (Some w) (Some ErrNotFound) = false.
Proof.
  assert (H1 : StatusCode server_error_response <> 404) by (simpl; lia).
  assert (H2 : StatusCode server_error_response < 200 \/
               300 <= StatusCode server_error_response) by (right; simpl; lia).
  split; [exact H1|]. split; [exact H2|].
  exact (unpackResponse_status_error (Some 7%nat) server_error_response 0%nat H1 H2).
Defined.

Lemma facade_passes_transport_error_through_witness :
  endpoint (api := fixed_api (None, Some refused)) Player_Find None tt (1, "Nick") 2%nat
  = Ret (None, Some refused) 2%nat /\
  PlayerService_Find (api := fixed_api (None, Some refused))
    (common {| internalClient := None |}) tt 1 "Nick" 2%nat
  = Ret (None, Some refused) 2%nat.
Proof.
  split; [reflexivity|].
  exact (proj1 (facade_passes_transport_error_through
                  (api := fixed_api (None, Some refused)) Player_Find
                  {| internalClient := None |} tt (1, "Nick") 2%nat
                  None (Some refused) 2%nat eq_refl) refused eq_refl).
Defined.

(** C2, as the spec words it, fails: [PlayerService.Find] on an endpoint call
    that reports the transport error [refused] does not return an error that
    carries the "client execution error" context and unwraps to [refused]. *)
Lemma PlayerService_Find_does_not_wrap :
  endpoint (api := fixed_api (None, Some refused)) Player_Find None tt (1, "Nick") 2%nat
  = Ret (None, Some refused) 2%nat /\
  ~ exists w k,
      PlayerService_Find (api := fixed_api (None, Some refused))
        (common {| internalClient := None |}) tt 1 "Nick" 2%nat
      = Ret (None, Some w) k /\
      Error w = "client execution error: " +:+ Error refused /\
      errors_Unwrap (Some w) = Some refused.
Proof.
  split; [reflexivity|].
  intros (w & k & E & _ & Hu).
  change (PlayerService_Find (api := fixed_api (None, Some refused))
            (common {| internalClient := None |}) tt 1 "Nick" 2%nat)
    with (Ret (@None nat, Some refused) 2%nat) in E.
  injection E as <- _. discriminate Hu.
Qed.

Lemma options_run_in_order_witness :
  apply_opts (context := unit) [WithBaseURL "http://localhost:8080"]
    initial_httpClient defaultBaseURL 0%nat
  = Ret (inr (initial_httpClient, "http://localhost:8080")) 0%nat /\
  exists cl g,
    NewClient (context := unit) "secret"
      ([WithBaseURL "http://localhost:8080"] ++
       [WithTimeout (5 * time_Second); WithHTTPClient (Some custom_client)]) 0%nat
    = Ret (Some cl, None) 0%nat /\
    internalClient cl = Some g /\
    Client_ g = custom_client /\ Timeout (Client_ g) = Timeout custom_client.
Proof.
  split; [reflexivity|].
  exact (proj1 (options_run_in_order_last_wins (context := unit) "secret"
                  [WithBaseURL "http://localhost:8080"] 0%nat
                  initial_httpClient "http://localhost:8080" 0%nat eq_refl)
           (5 * time_Second) custom_client).
Defined.

Lemma every_request_carries_api_key_witness :
  NewClient (context := unit) "secret" [] 0%nat
  = Ret (Some (built "secret" initial_httpClient defaultBaseURL), None) 0%nat /\
  exists g,
    internalClient (built (context := unit) "secret" initial_httpClient defaultBaseURL)
    = Some g /\
    PlayerService_Find (api := fixed_api (None, Some refused))
      (Player (built "secret" initial_httpClient defaultBaseURL)) tt 1 "Nick" 0%nat
    = match endpoint (api := fixed_api (None, Some refused)) Player_Find (Some g) tt
              (1, "Nick") 0%nat with
      | Ret res k' => after_call res k'
      | Panic => Panic
      end /\
    exists req',
      applyEditors (RequestEditors g) tt get_request 0%nat = Ret (req', None) 0%nat /\
      Header_Get (Header req') "X-API-Key" = "secret".
Proof.
  split; [reflexivity|].
  destruct (every_request_carries_api_key (context := unit)
              (api := fixed_api (None, Some refused)) "secret" [] 0%nat
              (built "secret" initial_httpClient defaultBaseURL) 0%nat eq_refl)
    as (g & Hg & _ & _ & Hrun & Hreq).
  exists g. split; [exact Hg|]. split.
  - apply (Hrun (Player (built "secret" initial_httpClient defaultBaseURL))
             Player_Find tt (1, "Nick") 0%nat).
    unfold facades. simpl. tauto.
  - destruct (Hreq tt get_request {[ "Accept" := ["application/json"] ]} 0%nat eq_refl)
      as (req' & _ & Hed & _ & Hget & _).
    exists req'. split; [exact Hed | exact Hget].
Defined.

Lemma failing_option_aborts_witness :
  apply_opts (context := unit) [WithTimeout (5 * time_Second)]
    initial_httpClient defaultBaseURL 0%nat
  = Ret (inr ({| Transport := None; CheckRedirect := None; Jar := None;
                 Timeout := 5 * time_Second |}, defaultBaseURL)) 0%nat /\
  NewClient (context := unit) "secret"
    ([WithTimeout (5 * time_Second)] ++ failing_option bad_option :: [WithHTTPClient None])
    0%nat
  = Ret (None, Some (wrapError (Dyn 0) "failed to apply option: bad option" bad_option))
        1%nat.
Proof.
  split; [reflexivity|].
  exact (proj1 (failing_option_aborts_NewClient (context := unit) "secret"
                  [WithTimeout (5 * time_Second)] (failing_option bad_option)
                  [WithHTTPClient None] 0%nat
                  {| Transport := None; CheckRedirect := None; Jar := None;
                     Timeout := 5 * time_Second |} defaultBaseURL 0%nat
                  {| Transport := None; CheckRedirect := None; Jar := None;
                     Timeout := 5 * time_Second |} defaultBaseURL
                  bad_option 0%nat eq_refl eq_refl)).
Defined.

(** * Further properties of the code *)

(** ** Errors *)





Lemma is_wrapError_sentinel (p : addr) (msg : string) (e : error) (name s : string) :
  is_ (wrapError p msg e) (errorString (Static name) s)
  = is_ e (errorString (Static name) s).
Proof. reflexivity. Qed.

Section UnpackMore.

Context {T : Type}.
Implicit Types (v : option T) (r : http_Response) (e : error) (h : heap).

Lemma unpack_cases v r h :
  (absent v r /\
   unpackResponse v (Some r) None h = Ret (None, Some ErrNotFound) h) \/
  (~ absent v r /\ usable v r None /\
   unpackResponse v (Some r) None h = Ret (v, None) h) \/
  (~ absent v r /\ ~ usable v r None /\
   unpackResponse v (Some r) None h
   = Ret (None, Some (errorString (Dyn h) ("api error: status " +:+ Status r))) (S h)).
Proof.
  unfold absent, usable.
  destruct (Z.eq_dec (StatusCode r) 404) as [E404|N404].
  - left. split; [now left | now apply unpack_not_found].
  - destruct (Z_lt_dec (StatusCode r) 200) as [Lo|Lo];
      [|destruct (Z_le_dec 300 (StatusCode r)) as [Hi|Hi]].
    + right. right. split; [|split].
      * intros [?|[? _]]; lia.
      * intros (_ & ? & _). lia.
      * apply unpack_status; [exact N404 | now left].
    + right. right. split; [|split].
      * intros [?|[? _]]; lia.
      * intros (_ & ? & _). lia.
      * apply unpack_status; [exact N404 | now right].
    + rewrite unpack_success by lia. destruct v as [x|].
      * right. left. split; [|split; [|reflexivity]].
        -- intros [?|[_ ?]]; [lia | discriminate].
        -- split; [reflexivity|]. split; [lia | discriminate].
      * left. split; [right; split; [lia | reflexivity] | reflexivity].
Qed.

End UnpackMore.

Section UnpackErrors.

Context {T : Type}.
Implicit Types (v : option T) (r : http_Response) (e : error) (h : heap).

(** X1. With a nil transport error, the error [unpackResponse] returns is
    [ErrNotFound], by identity and for [errors.Is] alike, exactly when the
    status is 404 or the status is in [200, 300) with a nil body. *)
Theorem unpackResponse_ErrNotFound_iff v r h :
  exists res h',
    unpackResponse v (Some r) None h = Ret res h' /\
    (snd res = Some ErrNotFound <-> absent v r) /\
    (errors_Is (snd res) (Some ErrNotFound) = true <-> absent v r).
Proof.
  destruct (unpack_cases v r h) as [(Ha & E)|[(Hn & _ & E)|(Hn & _ & E)]];
    rewrite E; eexists _, _; (split; [reflexivity|]); cbn [snd].
  - split; (split; [intros _; exact Ha | reflexivity]).
  - split; (split; [discriminate | intros Ha; now destruct Hn]).
  - split; (split; [discriminate | intros Ha; now destruct Hn]).
Qed.


End UnpackErrors.

(** ** The facade, end to end *)

Section FacadeMore.

Context {context : Type} {api : @ClientWithResponsesInterface context}.

Lemma run_service (m : method) (s : service) (ctx : context) (a : args m) (h : heap) :
  run m s ctx a h
  = match client s with
    | None => Panic
    | Some c =>
        match endpoint m (internalClient c) ctx a h with
        | Ret res h' => after_call res h'
        | Panic => Panic
        end
    end.
Proof. destruct s as [[c|]]; destruct m; reflexivity. Qed.

Lemma unpack_one_of {T : Type} (v : option T) (p : option http_Response)
    (err : option error) (h : heap) (v' : option T) (err' : option error) (h' : heap) :
  unpackResponse v p err h = Ret (v', err') h' -> (v' = None <-> err' <> None).
Proof.
  destruct err as [e|].
  - rewrite unpack_transport. intros [= <- <- _]. split; [discriminate | reflexivity].
  - destruct p as [r|]; [|discriminate].
    destruct (unpack_cases v r h) as [(_ & E)|[(_ & Hu & E)|(_ & _ & E)]]; rewrite E.
    + intros [= <- <- _]. split; [discriminate | reflexivity].
    + intros [= <- <- _]. destruct Hu as (_ & _ & Hv).
      split; [intros ->; now destruct Hv | intros Hn; now destruct Hn].
    + intros [= <- <- _]. split; [discriminate | reflexivity].
Qed.

Lemma after_call_one_of {T : Type} (res : option (envelope T) * option error)
    (h : heap) (v : option T) (err : option error) (h' : heap) :
  after_call res h = Ret (v, err) h' -> (v = None <-> err <> None).
Proof.
  destruct res as [resp [e|]].
  - rewrite after_call_error. intros [= <- <- _]. split; [discriminate | reflexivity].
  - destruct resp as [env|]; [|discriminate].
    rewrite after_call_response. apply unpack_one_of.
Qed.

(** X3. Whatever the facade method, the facade it is called on and the
    generated client behind it, a call that returns gives exactly one of a
    value and an error: the value is nil if and only if the error is not. *)
Theorem facade_returns_value_xor_error
    (m : method) (s : service) (ctx : context) (a : args m) (h : heap)
    (v : option (payload m)) (err : option error) (h' : heap) :
  run m s ctx a h = Ret (v, err) h' -> (v = None <-> err <> None).
Proof.
  rewrite run_service. destruct (client s) as [c|]; [|discriminate].
  destruct (endpoint m (internalClient c) ctx a h) as [res k|]; [|discriminate].
  apply after_call_one_of.
Qed.

(** X4. Given what the endpoint call returned, a facade method panics exactly
    when the transport error is nil and either the response envelope is nil
    or its HTTP response is nil. *)
Theorem facade_panics_iff_nil_response
    (m : method) (c : Client) (ctx : context) (a : args m) (h : heap)
    (resp : option (envelope (payload m))) (err : option error) (h' : heap) :
  endpoint m (internalClient c) ctx a h = Ret (resp, err) h' ->
  (run m (common c) ctx a h = Panic <->
   err = None /\
   (resp = None \/ exists env, resp = Some env /\ HTTPResponse env = None)).
Proof.
  intros E. rewrite run_endpoint, E. destruct err as [e|].
  - rewrite after_call_error. split; [discriminate | intros [[=] _]].
  - destruct resp as [env|].
    + rewrite after_call_response. destruct (HTTPResponse env) as [r|] eqn:Er.
      * destruct (unpack_returns (JSON200 env) r h') as (res & k & ->).
        split; [discriminate|]. intros (_ & [[=]|(env' & [= <-] & Hn)]).
        rewrite Er in Hn. discriminate.
      * split; [|reflexivity]. intros _. split; [reflexivity|]. right. eauto.
    + split; [|reflexivity]. intros _. split; [reflexivity|]. now left.
Qed.

(** X5. When the endpoint call returns an envelope with an HTTP response and
    a nil error, the facade method returns: the decoded body with a nil
    error exactly when the status is in [200, 300) and the body is non-nil,
    and [ErrNotFound] exactly when the status is 404 or the status is in
    [200, 300) with a nil body. *)
Theorem facade_classifies_response
    (m : method) (c : Client) (ctx : context) (a : args m) (h : heap)
    (env : envelope (payload m)) (r : http_Response) (h' : heap) :
  endpoint m (internalClient c) ctx a h = Ret (Some env, None) h' ->
  HTTPResponse env = Some r ->
  exists res k,
    run m (common c) ctx a h = Ret res k /\
    (res = (JSON200 env, None) <->
     200 <= StatusCode r < 300 /\ JSON200 env <> None) /\
    (snd res = Some ErrNotFound <-> absent (JSON200 env) r) /\
    (errors_Is (snd res) (Some ErrNotFound) = true <-> absent (JSON200 env) r).
Proof.
  intros E Er. rewrite run_endpoint, E, after_call_response, Er.
  destruct (unpack_cases (JSON200 env) r h')
    as [(Ha & Eu)|[(Hn & Hu & Eu)|(Hn & Hu & Eu)]];
    rewrite Eu; eexists _, _; (split; [reflexivity|]); cbn [snd].
  - split; [|split; (split; [intros _; exact Ha | reflexivity])].
    split; [discriminate | intros (Hr & Hv)].
    destruct Ha as [?|[_ ?]]; [lia | contradiction].
  - destruct Hu as (_ & Hr & Hv).
    split; [split; [intros _; now split | reflexivity]|].
    split; (split; [discriminate | intros Ha; now destruct Hn]).
  - split; [|split; (split; [discriminate | intros Ha; now destruct Hn])].
    split; [discriminate | intros (Hr & Hv)].
    destruct Hu. now repeat split.
Qed.

End FacadeMore.

(** ** Construction, further *)

Section ConstructionMore.

Context {context : Type}.
Implicit Types (opts pre post : list Option) (c : http_Client) (u apiKey : string)
  (h : heap) (l : list builtin).

(** X6. A list of the package's own options never fails: [NewClient]
    returns a client and a nil error.  The client's base URL is that of the
    last [WithBaseURL], the default without one; its HTTP client has the
    transport, redirect policy and cookie jar of the last [WithHTTPClient],
    none without one; its timeout is what the last [WithTimeout] or
    [WithHTTPClient] brought, 30 seconds without one. *)
Theorem NewClient_builtin_options_last_wins apiKey l h :
  NewClient (context := context) apiKey (map option_of l) h
  = Ret (Some (built apiKey (chosen_httpClient l) (chosen_url l)), None) h.
Proof.
  apply NewClient_built. induction l as [|b l IH] using rev_ind; [reflexivity|].
  rewrite map_app, apply_opts_app, IH.
  unfold chosen_httpClient, chosen_base, chosen_timeout, chosen_url.
  rewrite rev_unit. destruct b as [url|timeout|customClient]; cbn; try reflexivity.
  now destruct customClient.
Qed.

(** X7. An option that panics makes [NewClient] panic, whatever follows it;
    [WithHTTPClient(nil)] is such an option, wherever it is applied. *)
Theorem NewClient_panics_on_nil_HTTP_client apiKey pre post h c u h1 :
  apply_opts (context := context) pre initial_httpClient defaultBaseURL h
  = Ret (inr (c, u)) h1 ->
  NewClient (context := context) apiKey (pre ++ WithHTTPClient None :: post) h = Panic /\
  (forall opt : Option, opt c u h1 = Panic ->
     NewClient (context := context) apiKey (pre ++ opt :: post) h = Panic).
Proof.
  intros E.
  assert (H : forall opt : Option, opt c u h1 = Panic ->
              NewClient (context := context) apiKey (pre ++ opt :: post) h = Panic).
  { intros opt Ep. now rewrite NewClient_loop, apply_opts_app, E, apply_opts_cons, Ep. }
  split; [apply H; reflexivity | exact H].
Qed.

Lemma NewClient_same_loop apiKey opts opts' h :
  apply_opts (context := context) opts initial_httpClient defaultBaseURL h
  = apply_opts opts' initial_httpClient defaultBaseURL h ->
  NewClient (context := context) apiKey opts h = NewClient apiKey opts' h.
Proof. intros E. now rewrite !NewClient_loop, E. Qed.

(** X8. [WithBaseURL] commutes with [WithTimeout] and with [WithHTTPClient]
    (nil client included): swapping two such neighbours anywhere in the
    option list does not change what [NewClient] returns. *)
Theorem WithBaseURL_commutes apiKey pre post url h :
  (forall d,
     NewClient (context := context) apiKey
       (pre ++ WithBaseURL url :: WithTimeout d :: post) h
     = NewClient apiKey (pre ++ WithTimeout d :: WithBaseURL url :: post) h) /\
  (forall p,
     NewClient (context := context) apiKey
       (pre ++ WithBaseURL url :: WithHTTPClient p :: post) h
     = NewClient apiKey (pre ++ WithHTTPClient p :: WithBaseURL url :: post) h).
Proof.
  split; [intros d | intros p]; apply NewClient_same_loop; rewrite !apply_opts_app;
    destruct (apply_opts pre initial_httpClient defaultBaseURL h)
      as [[early|[c u]] h1|]; try reflexivity.
  now destruct p.
Qed.

(** X9. [WithTimeout] and [WithHTTPClient] do not commute: after options
    that ran without failing, the two orders give the same client exactly
    when the timeout passed is the custom client's own. *)
Theorem WithTimeout_WithHTTPClient_order apiKey pre h c u h1 d custom :
  apply_opts (context := context) pre initial_httpClient defaultBaseURL h
  = Ret (inr (c, u)) h1 ->
  (NewClient (context := context) apiKey
     (pre ++ [WithHTTPClient (Some custom); WithTimeout d]) h
   = NewClient apiKey (pre ++ [WithTimeout d; WithHTTPClient (Some custom)]) h
   <-> d = Timeout custom) /\
  NewClient (context := context) apiKey
    (pre ++ [WithHTTPClient (Some custom); WithTimeout d]) h
  = Ret (Some (built apiKey
                 {| Transport := Transport custom;
                    CheckRedirect := CheckRedirect custom;
                    Jar := Jar custom; Timeout := d |} u), None) h1.
Proof.
  intros E.
  assert (E1 : NewClient (context := context) apiKey
                 (pre ++ [WithHTTPClient (Some custom); WithTimeout d]) h
               = Ret (Some (built apiKey
                              {| Transport := Transport custom;
                                 CheckRedirect := CheckRedirect custom;
                                 Jar := Jar custom; Timeout := d |} u), None) h1).
  { apply NewClient_built. now rewrite apply_opts_app, E. }
  assert (E2 : NewClient (context := context) apiKey
                 (pre ++ [WithTimeout d; WithHTTPClient (Some custom)]) h
               = Ret (Some (built apiKey custom u), None) h1).
  { apply NewClient_built. now rewrite apply_opts_app, E. }
  split; [|exact E1]. rewrite E1, E2. split.
  - intros [= Hc]. rewrite <- Hc. reflexivity.
  - intros ->. now destruct custom.
Qed.


(** X11. On a request whose header map is nil the interceptor panics.  On
    any other request it reports no error and returns the request with the
    map entry under the canonical name "X-Api-Key" replaced by the single
    value [apiKey], every value stored there before being dropped; every
    other entry of the map, an entry written directly under another
    spelling of the name included, the method and the URL stay as they
    were.  Reading the header under any spelling whose canonical form is
    "X-Api-Key" then gives [apiKey].  Applying the interceptor again, or
    after an interceptor for another key, gives the same request. *)
Theorem authInterceptor_replaces_only_api_key
    apiKey (ctx : context) (meth url : string) h :
  authInterceptor apiKey ctx {| Method := meth; URL := url; Header := None |} h
  = Panic /\
  forall hd : http_Header,
  exists req',
    authInterceptor apiKey ctx {| Method := meth; URL := url; Header := Some hd |} h
    = Ret (req', None) h /\
    Header req' = Some (<["X-Api-Key" := [apiKey]]> hd) /\
    (exists hd', Header req' = Some hd' /\
       hd' !! "X-Api-Key" = Some [apiKey] /\
       forall k : string, k <> "X-Api-Key" -> hd' !! k = hd !! k) /\
    (forall name, CanonicalMIMEHeaderKey name = "X-Api-Key" ->
       Header_Get (Header req') name = apiKey) /\
    (forall name, CanonicalMIMEHeaderKey name <> "X-Api-Key" ->
       Header_Get (Header req') name = Header_Get (Some hd) name) /\
    Method req' = meth /\ URL req' = url /\
    authInterceptor apiKey ctx req' h = Ret (req', None) h /\
    (forall (other : string) (ctx' : context) (k : heap) (req1 : http_Request),
       authInterceptor other ctx'
         {| Method := meth; URL := url; Header := Some hd |} k = Ret (req1, None) k ->
       authInterceptor apiKey ctx req1 h = Ret (req', None) h).
Proof.
  split; [reflexivity|]. intros hd. eexists.
  split; [now apply authInterceptor_sets|]. cbn [Header Method URL].
  split; [reflexivity|]. split; [|split; [|split; [|split; [|split; [|split]]]]];
    try reflexivity.
  - eexists. split; [reflexivity|]. split; [apply lookup_insert_eq|].
    intros k Hk. now rewrite lookup_insert_ne.
  - intros name Hn. unfold Header_Get. rewrite Hn. now rewrite lookup_insert_eq.
  - intros name Hn. unfold Header_Get. now rewrite lookup_insert_ne.
  - erewrite authInterceptor_sets by reflexivity. cbn [Header Method URL].
    now rewrite insert_insert_eq.
  - intros other ctx' k req1. erewrite authInterceptor_sets by reflexivity.
    intros [= <-]. erewrite authInterceptor_sets by reflexivity.
    cbn [Header Method URL]. now rewrite insert_insert_eq.
Qed.

End ConstructionMore.

Section ClientFacades.

Context {context : Type} {api : @ClientWithResponsesInterface context}.

(** X12. On a client that [NewClient] returned, every method of every one
    of the ten facades calls its endpoint on the one generated client of
    that client, the one that holds the interceptor for [apiKey]. *)
Theorem facades_share_generated_client
    (apiKey : string) (opts : list Option) (h : heap) (cl : Client) (h1 : heap) :
  NewClient apiKey opts h = Ret (Some cl, None) h1 ->
  exists g,
    internalClient cl = Some g /\
    RequestEditors g = [authInterceptor apiKey] /\
    forall (s : service) (m : method) (ctx : context) (a : args m) (k : heap),
      In s (facades cl) ->
      run m s ctx a k
      = match endpoint m (Some g) ctx a k with
        | Ret res k' => after_call res k'
        | Panic => Panic
        end.
Proof.
  intros E. destruct (NewClient_success _ _ _ _ _ E) as (c & u & ->).
  eexists. split; [reflexivity|]. split; [reflexivity|].
  intros s m ctx a k Hs.
  assert (Es : s = common (built apiKey c u)).
  { unfold facades in Hs. simpl in Hs.
    repeat (destruct Hs as [<-|Hs]; [reflexivity|]). destruct Hs. }
  rewrite Es. apply run_endpoint.
Qed.

End ClientFacades.

(** ** The further properties at concrete inputs *)

Example interceptor_on_keyed_request :
  match authInterceptor (context := unit) "secret" tt keyed_request 0%nat with
  | Ret (req, err) _ =>
      match Header req with
      | Some hd =>
          hd !! "X-Api-Key" = Some ["secret"] /\
          hd !! "x-api-key" = Some ["raw"] /\
          hd !! "Accept" = Some ["*/*"]
      | None => False
      end /\
      Header_Get (Header req) "x-api-key" = "secret" /\
      Header_Get (Header req) "accept" = "*/*" /\
      err = None
  | Panic => False
  end.
Proof. vm_compute. repeat split. Qed.

Example builtin_options_example :
  chosen_url [UseBaseURL "http://a"; UseTimeout 5; UseBaseURL "http://b"] = "http://b" /\
  chosen_httpClient [UseTimeout 5; UseHTTPClient custom_client; UseTimeout 7]
  = {| Transport := Some 7%nat; CheckRedirect := None; Jar := Some 9%nat; Timeout := 7 |}.
Proof. split; reflexivity. Qed.

Lemma facade_returns_value_xor_error_witness :
  run (api := fixed_api (Some {| HTTPResponse := Some ok_response;
                                 JSON200 := Some 3%nat |}, None))
    Player_Find (common {| internalClient := None |}) tt (1, "Nick") 0%nat
  = Ret (Some 3%nat, None) 0%nat /\
  (Some 3%nat = None <-> @None error <> None).
Proof.
  split; [reflexivity|].
  exact (facade_returns_value_xor_error
           (api := fixed_api (Some {| HTTPResponse := Some ok_response;
                                      JSON200 := Some 3%nat |}, None))
           Player_Find (common {| internalClient := None |}) tt (1, "Nick") 0%nat
           (Some 3%nat) None 0%nat eq_refl).
Defined.

Lemma facade_panics_witness :
  endpoint (api := fixed_api (None, None)) Status_Get None tt tt 0%nat
  = Ret (None, None) 0%nat /\
  StatusService_Get (api := fixed_api (None, None))
    (common {| internalClient := None |}) tt 0%nat = Panic.
Proof.
  split; [reflexivity|].
  exact (proj2 (facade_panics_iff_nil_response (api := fixed_api (None, None))
                  Status_Get {| internalClient := None |} tt tt 0%nat
                  None None 0%nat eq_refl)
           (conj eq_refl (or_introl eq_refl))).
Defined.

Lemma facade_classifies_response_witness :
  endpoint (api := fixed_api (Some {| HTTPResponse := Some not_found_response;
                                      JSON200 := Some 3%nat |}, None))
    Player_Find None tt (1, "Nick") 0%nat
  = Ret (Some {| HTTPResponse := Some not_found_response; JSON200 := Some 3%nat |}, None)
        0%nat /\
  exists res k,
    PlayerService_Find (api := fixed_api (Some {| HTTPResponse := Some not_found_response;
                                                  JSON200 := Some 3%nat |}, None))
      (common {| internalClient := None |}) tt 1 "Nick" 0%nat = Ret res k /\
    (snd res = Some ErrNotFound <-> absent (Some 3%nat) not_found_response).
Proof.
  split; [reflexivity|].
  destruct (facade_classifies_response
              (api := fixed_api (Some {| HTTPResponse := Some not_found_response;
                                         JSON200 := Some 3%nat |}, None))
              Player_Find {| internalClient := None |} tt (1, "Nick") 0%nat
              {| HTTPResponse := Some not_found_response; JSON200 := Some 3%nat |}
              not_found_response 0%nat eq_refl eq_refl)
    as (res & k & E & _ & Hnf & _).
  exists res, k. split; [exact E | exact Hnf].
Defined.

Lemma NewClient_panics_witness :
  apply_opts (context := unit) [WithTimeout (5 * time_Second)]
    initial_httpClient defaultBaseURL 0%nat
  = Ret (inr ({| Transport := None; CheckRedirect := None; Jar := None;
                 Timeout := 5 * time_Second |}, defaultBaseURL)) 0%nat /\
  NewClient (context := unit) "secret"
    ([WithTimeout (5 * time_Second)] ++ WithHTTPClient None :: [failing_option bad_option])
    0%nat = Panic.
Proof.
  split; [reflexivity|].
  exact (proj1 (NewClient_panics_on_nil_HTTP_client (context := unit) "secret"
                  [WithTimeout (5 * time_Second)] [failing_option bad_option] 0%nat
                  {| Transport := None; CheckRedirect := None; Jar := None;
                     Timeout := 5 * time_Second |} defaultBaseURL 0%nat eq_refl)).
Defined.

Lemma WithTimeout_WithHTTPClient_order_witness :
  apply_opts (context := unit) [] initial_httpClient defaultBaseURL 0%nat
  = Ret (inr (initial_httpClient, defaultBaseURL)) 0%nat /\
  (NewClient (context := unit) "secret"
     ([] ++ [WithHTTPClient (Some custom_client); WithTimeout (5 * time_Second)]) 0%nat
   = NewClient "secret"
       ([] ++ [WithTimeout (5 * time_Second); WithHTTPClient (Some custom_client)]) 0%nat
   <-> 5 * time_Second = Timeout custom_client).
Proof.
  split; [reflexivity|].
  exact (proj1 (WithTimeout_WithHTTPClient_order (context := unit) "secret" [] 0%nat
                  initial_httpClient defaultBaseURL 0%nat (5 * time_Second)
                  custom_client eq_refl)).
Defined.


Lemma facades_share_generated_client_witness :
  NewClient (context := unit) "secret" [] 0%nat
  = Ret (Some (built "secret" initial_httpClient defaultBaseURL), None) 0%nat /\
  exists g,
    internalClient (built (context := unit) "secret" initial_httpClient defaultBaseURL)
    = Some g /\
    RequestEditors g = [authInterceptor "secret"].
Proof.
  split; [reflexivity|].
  destruct (facades_share_generated_client (api := fixed_api (None, Some refused))
              "secret" [] 0%nat (built "secret" initial_httpClient defaultBaseURL)
              0%nat eq_refl)
    as (g & Hg & He & _).
  exists g. split; [exact Hg | exact He].
Defined.
